(** * counterReducer (src/src/reducers/counterReducer.js), shallow embedding

    The reducer is a JavaScript function of a state value and an action
    value.  It reads [action.type], compares it with ['INCREASE_COUNT'] by
    strict equality (the semantics of [switch]), and on a match allocates a
    fresh object [{ clicks: state.clicks + 1 }]; otherwise it returns its
    [state] argument itself.  The parameter [state] defaults to a freshly
    allocated [{ clicks: 0 }] when it is [undefined].

    JavaScript values are modelled with objects as references into a heap,
    so that allocation, aliasing and (absence of) mutation are visible.
    Numbers are modelled as integer-valued IEEE-754 doubles (plus NaN);
    the Number addition [x + 1] is the exact sum rounded to the nearest
    double, ties to even.  Fractional numbers, infinities and -0 are not
    modelled: the reducer never produces them from integer inputs. *)

From Stdlib Require Import ZArith Lia.
From stdpp Require Import base gmap strings list.

Open Scope Z_scope.

(** ** JavaScript values and the object heap *)

Definition loc := positive.

Inductive jsval :=
| JUndef
| JNull
| JBool (b : bool)
| JNum (z : Z)            (* an integer-valued double *)
| JNaN
| JStr (s : string)
| JBigInt (z : Z)
| JSym (id : positive)
| JObj (l : loc).         (* reference to a plain object *)

#[global] Instance jsval_eq_dec : EqDecision jsval.
Proof. solve_decision. Defined.

(** A plain object: its own properties. *)
Abbreviation obj := (gmap string jsval).
Abbreviation heap := (gmap loc obj).

Inductive js_error := TypeError.

Inductive outcome (A : Type) :=
| Ok (a : A)
| Throw (e : js_error).
Arguments Ok {A} a.
Arguments Throw {A} e.

#[global] Instance outcome_ret : MRet outcome := fun A a => Ok a.
#[global] Instance outcome_bind : MBind outcome :=
  fun A B k m => match m with Ok a => k a | Throw e => Throw e end.

(** [{ ... }]: allocation of a fresh object. *)
Definition alloc (h : heap) (o : obj) : heap * loc :=
  let l := fresh (dom h) in (<[l := o]> h, l).

(** Property read [v.k] (plain objects, no prototype properties named
    [type] or [clicks]); reading a property of [undefined] or [null] throws
    a TypeError. *)
Definition get_prop (h : heap) (v : jsval) (k : string) : outcome jsval :=
  match v with
  | JUndef | JNull => Throw TypeError
  | JObj l => Ok (default JUndef (h !! l ≫= (.!! k)))
  | _ => Ok JUndef
  end.

(** Strict equality [===]. *)
Definition strict_eq (x y : jsval) : bool :=
  match x, y with
  | JUndef, JUndef | JNull, JNull => true
  | JBool a, JBool b => Bool.eqb a b
  | JNum a, JNum b => Z.eqb a b
  | JStr a, JStr b => bool_decide (a = b)
  | JBigInt a, JBigInt b => Z.eqb a b
  | JSym a, JSym b => Pos.eqb a b
  | JObj a, JObj b => Pos.eqb a b
  | _, _ => false
  end.

(** ** Number addition on doubles *)

(** The double nearest to the integer [z], ties to even (binary64: 53-bit
    significand).  Integers of magnitude up to 2^53 are exact. *)
Definition round_double (z : Z) : Z :=
  let a := Z.abs z in
  if a <=? 2 ^ 53 then z else
  let p := 2 ^ (Z.log2 a - 52) in
  let q := a / p in
  let r := a mod p in
  let q' :=
    if 2 * r <? p then q
    else if p <? 2 * r then q + 1
    else if Z.even q then q else q + 1 in
  Z.sgn z * (q' * p).

(** [z] is (the value of) a double. *)
Definition is_double (z : Z) : Prop := round_double z = z.

(** [x + 1] for the operand [x], read in the heap [h]: ToPrimitive, then
    string concatenation or numeric addition; BigInt and Symbol operands
    throw.  An object goes through OrdinaryToPrimitive (hint "default"):
    [valueOf], then [toString], each called only if callable.  Objects here
    are plain objects and property values are never functions, so an own
    [valueOf] or [toString] property is not callable and is skipped; the
    inherited [Object.prototype.valueOf] returns the object itself (not a
    primitive) and the inherited [Object.prototype.toString] gives
    "[object Object]".  An own [toString] property thus leaves no method to
    call and the conversion throws a TypeError. *)
Definition js_plus_one (h : heap) (x : jsval) : outcome jsval :=
  match x with
  | JUndef => Ok JNaN
  | JNull => Ok (JNum 1)
  | JBool b => Ok (JNum (if b then 2 else 1))
  | JNum z => Ok (JNum (round_double (z + 1)))
  | JNaN => Ok JNaN
  | JStr s => Ok (JStr (s +:+ "1"))
  | JBigInt _ => Throw TypeError
  | JSym _ => Throw TypeError
  | JObj l =>
      match h !! l ≫= (.!! "toString") with
      | Some _ => Throw TypeError
      | None => Ok (JStr "[object Object]1")
      end
  end.

(** ** The reducer *)

Definition INCREASE_COUNT : jsval := JStr "INCREASE_COUNT".

(** [export default function counterReducer(state = { clicks: 0 }, action)] *)
Definition counterReducer (h : heap) (state action : jsval)
    : outcome (heap * jsval) :=
  let '(h, state) :=
    match state with
    | JUndef => let '(h', l) := alloc h {[ "clicks" := JNum 0 ]} in (h', JObj l)
    | _ => (h, state)
    end in
  t ← get_prop h action "type";
  if strict_eq t INCREASE_COUNT then
    c ← get_prop h state "clicks";
    v ← js_plus_one h c;
    let '(h', l) := alloc h {[ "clicks" := v ]} in
    Ok (h', JObj l)
  else Ok (h, state).

(** ** Driving the reducer *)

(** Successive reductions of a list of actions, as successive dispatches
    do. *)
Fixpoint run (h : heap) (s : jsval) (acts : list jsval)
    : outcome (heap * jsval) :=
  match acts with
  | [] => Ok (h, s)
  | a :: rest => '(h', s') ← counterReducer h s a; run h' s' rest
  end.

(** The seed state of a store: the reducer applied to [undefined] and a
    freshly allocated init action [{ type: "@@redux/INIT" }]. *)
Definition seed (h : heap) : outcome (heap * jsval) :=
  let '(h1, i) := alloc h {[ "type" := JStr "@@redux/INIT" ]} in
  counterReducer h1 JUndef (JObj i).

(** Seed, then reduce [acts]. *)
Definition session (h : heap) (acts : list jsval) : outcome (heap * jsval) :=
  '(h0, s0) ← seed h; run h0 s0 acts.

(** The [clicks] field of a result. *)
Definition clicks_of (r : outcome (heap * jsval)) : outcome jsval :=
  '(h, s) ← r; get_prop h s "clicks".

(** Allocate one [{ type: "INCREASE_COUNT" }] action, seed a store, and
    dispatch that action [n] times. *)
Definition increase_n (h : heap) (n : nat) : outcome (heap * jsval) :=
  let '(h1, la) := alloc h {[ "type" := INCREASE_COUNT ]} in
  session h1 (repeat (JObj la) n).

Definition is_nullish (v : jsval) : bool :=
  match v with JUndef | JNull => true | _ => false end.

(** ** Auxiliary definitions for the statements *)

(** Observing the object a result refers to. *)
Definition result_obj (r : outcome (heap * jsval)) : option obj :=
  match r with Ok (h, JObj l) => h !! l | _ => None end.

(** A heap holding the two actions of the lesson's scenario. *)
Definition scenario_heap : heap :=
  {[ 1%positive := {[ "type" := INCREASE_COUNT ]};
     2%positive := {[ "type" := JStr "DECREASE_COUNT" ]} ]}.

(** An action whose discriminator is not ['INCREASE_COUNT'] (including a
    missing or non-string [type]). *)
Definition unrecognized (h : heap) (a : jsval) : Prop :=
  exists t, get_prop h a "type" = Ok t /\ strict_eq t INCREASE_COUNT = false.

Definition clicks_nonneg (h : heap) (s : jsval) : Prop :=
  exists z, get_prop h s "clicks" = Ok (JNum z) /\ 0 <= z.

Definition c5_heap : heap :=
  {[ 1%positive := {[ "clicks" := JNum 4 ]};
     2%positive := {[ "type" := INCREASE_COUNT ]} ]}.

(** A value whose object, if any, is allocated in [h]. *)
Definition wf_val (h : heap) (v : jsval) : Prop :=
  match v with JObj l => is_Some (h !! l) | _ => True end.

(** Two results are equal: the same value, or two objects with the same
    properties (each call on the INCREASE_COUNT branch allocates its own
    object); or the same error. *)
Definition same_result (o1 o2 : outcome (heap * jsval)) : Prop :=
  match o1, o2 with
  | Ok (h1, r1), Ok (h2, r2) =>
      r1 = r2 \/ exists l1 l2 o, r1 = JObj l1 /\ r2 = JObj l2 /\
                                 h1 !! l1 = Some o /\ h2 !! l2 = Some o
  | Throw e1, Throw e2 => e1 = e2
  | _, _ => False
  end.

(** The body of [counterReducer] after the default parameter. *)
Definition reducer_body (h : heap) (state action : jsval) : outcome (heap * jsval) :=
  t ← get_prop h action "type";
  if strict_eq t INCREASE_COUNT then
    c ← get_prop h state "clicks";
    v ← js_plus_one h c;
    let '(h', l) := alloc h {[ "clicks" := v ]} in Ok (h', JObj l)
  else Ok (h, state).

(** Operands for which [x + 1] throws. *)
Definition plus_throws (h : heap) (v : jsval) : bool :=
  match v with
  | JBigInt _ | JSym _ => true
  | JObj l => match h !! l ≫= (.!! "toString") with Some _ => true | None => false end
  | _ => false
  end.

Definition c9_heap : heap :=
  {[ 1%positive := {[ "clicks" := JNum 3; "name" := JStr "x" ]};
     2%positive := {[ "type" := INCREASE_COUNT ]} ]}.

Definition c10_heap : heap :=
  {[ 1%positive := {[ "clicks" := JNum (2 ^ 53) ]};
     2%positive := {[ "type" := INCREASE_COUNT ]} ]}.

(** [action.type === 'INCREASE_COUNT'], the [switch]'s match, read in [h]
    ([false] when reading [action.type] throws). *)
Definition is_increase (h : heap) (a : jsval) : bool :=
  match get_prop h a "type" with
  | Ok t => strict_eq t INCREASE_COUNT
  | Throw _ => false
  end.

(** The number of INCREASE_COUNT actions in a list of actions. *)
Fixpoint count_inc (h : heap) (acts : list jsval) : Z :=
  match acts with
  | [] => 0
  | a :: rest => (if is_increase h a then 1 else 0) + count_inc h rest
  end.

Definition empty_state_heap : heap :=
  {[ 1%positive := ∅; 2%positive := {[ "type" := INCREASE_COUNT ]} ]}.

Definition nan_heap : heap :=
  {[ 1%positive := {[ "clicks" := JNaN ]}; 2%positive := {[ "type" := INCREASE_COUNT ]} ]}.

Definition string_heap : heap :=
  {[ 1%positive := {[ "clicks" := JStr "5" ]}; 2%positive := {[ "type" := INCREASE_COUNT ]} ]}.


Example ex_inc3 : clicks_of (increase_n ∅ 3) = Ok (JNum 3).
Proof. vm_compute. reflexivity. Qed.

Example ex_round : round_double (2 ^ 53 + 1) = 2 ^ 53
  /\ round_double (2 ^ 53 + 3) = 2 ^ 53 + 4
  /\ round_double (- 2 ^ 53 - 1) = - 2 ^ 53.
Proof. vm_compute. auto. Qed.

(** ** Rounding lemmas *)

Lemma round_small (z : Z) : Z.abs z <= 2 ^ 53 -> round_double z = z.
Proof. intros H. unfold round_double. apply Z.leb_le in H. now rewrite H. Qed.

Lemma round_large (z : Z) :
  2 ^ 53 < Z.abs z ->
  exists q', Z.abs z / 2 ^ (Z.log2 (Z.abs z) - 52) <= q'
           <= Z.abs z / 2 ^ (Z.log2 (Z.abs z) - 52) + 1
    /\ round_double z = Z.sgn z * (q' * 2 ^ (Z.log2 (Z.abs z) - 52)).
Proof.
  intros H. unfold round_double.
  destruct (Z.leb_spec (Z.abs z) (2 ^ 53)); [lia|].
  eexists; split; [|reflexivity].
  repeat match goal with |- context [if ?b then _ else _] => destruct b end; lia.
Qed.

Lemma log2_large (a : Z) : 2 ^ 53 < a -> 53 <= Z.log2 a.
Proof. intros H. apply Z.log2_le_pow2; lia. Qed.

Lemma round_nonneg (z : Z) : 0 <= z -> 0 <= round_double z.
Proof.
  intros Hz.
  destruct (Z.le_gt_cases (Z.abs z) (2 ^ 53)) as [Hs|Hl].
  - rewrite round_small; lia.
  - destruct (round_large z Hl) as (q' & Hq & ->).
    rewrite Z.abs_eq in Hl, Hq |- * by lia.
    pose proof (log2_large z Hl).
    rewrite Z.sgn_pos by lia.
    assert (0 < 2 ^ (Z.log2 z - 52)) by (apply Z.pow_pos_nonneg; lia).
    assert (0 <= z / 2 ^ (Z.log2 z - 52)) by (apply Z.div_pos; lia).
    nia.
Qed.

(** A double beyond 2^53 is a multiple of its unit in the last place. *)
Lemma double_divisible (z : Z) :
  2 ^ 53 < Z.abs z -> is_double z -> (2 ^ (Z.log2 (Z.abs z) - 52) | z).
Proof.
  intros Hl Hd. unfold is_double in Hd.
  destruct (round_large z Hl) as (q' & _ & Hr).
  rewrite Hd in Hr. exists (Z.sgn z * q'). rewrite Hr at 1. ring.
Qed.

Lemma pow2_divide (i j : Z) : 0 <= i <= j -> (2 ^ i | 2 ^ j).
Proof.
  intros H. exists (2 ^ (j - i)).
  rewrite <- Z.pow_add_r by lia. f_equal. lia.
Qed.

Lemma round_plus1_ge (z : Z) : is_double z -> z <= round_double (z + 1).
Proof.
  intros Hd.
  destruct (Z.le_gt_cases (Z.abs (z + 1)) (2 ^ 53)) as [Hs|Hl].
  { rewrite round_small; lia. }
  destruct (Z.lt_ge_cases 0 (z + 1)) as [Hp|Hn].
  - (* z + 1 > 2^53 *)
    rewrite Z.abs_eq in Hl by lia.
    destruct (Z.eq_dec z (2 ^ 53)) as [->|Hne].
    { vm_compute. discriminate. }
    assert (Hz : 2 ^ 53 < Z.abs z) by (rewrite Z.abs_eq; lia).
    pose proof (double_divisible z Hz Hd) as [k Hk].
    rewrite Z.abs_eq in Hk by lia.
    pose proof (log2_large z ltac:(lia)) as He.
    set (p := 2 ^ (Z.log2 z - 52)) in *.
    assert (Hp2 : 2 <= p).
    { unfold p. replace 2 with (2 ^ 1) at 1 by reflexivity.
      apply Z.pow_le_mono_r; lia. }
    assert (Hlog : Z.log2 (z + 1) = Z.log2 z).
    { destruct (Z.log2_succ_or z) as [Hs|Hs]; rewrite <- Z.add_1_r in Hs; [|exact Hs].
      exfalso. apply Z.log2_eq_succ_is_pow2 in Hs as [b Hb].
      rewrite <- Z.add_1_r in Hb.
      assert (Hb0 : 0 < b).
      { destruct (Z.le_gt_cases b 0) as [Hb0|]; [|lia].
        destruct (Z.eq_dec b 0) as [->|]; [simpl in Hb; lia|].
        rewrite Z.pow_neg_r in Hb by lia. lia. }
      assert (H2p : (2 | p)).
      { unfold p. replace 2 with (2 ^ 1) at 1 by reflexivity.
        apply pow2_divide; lia. }
      destruct H2p as [m Hm].
      assert (H2b : (2 | 2 ^ b)).
      { replace 2 with (2 ^ 1) at 1 by reflexivity. apply pow2_divide; lia. }
      destruct H2b as [n Hn']. lia. }
    destruct (round_large (z + 1)) as (q' & Hq & ->); [rewrite Z.abs_eq; lia|].
    rewrite Z.abs_eq in Hq |- * by lia.
    rewrite Hlog in Hq |- *. fold p in Hq |- *.
    rewrite Z.sgn_pos by lia.
    rewrite Hk, Z.div_add_l, (Z.div_small 1) in Hq by lia.
    nia.
  - (* z + 1 < - 2^53 *)
    rewrite Z.abs_neq in Hl by lia.
    assert (Hz : 2 ^ 53 < Z.abs z) by (rewrite Z.abs_neq; lia).
    pose proof (double_divisible z Hz Hd) as Hdiv.
    rewrite Z.abs_neq in Hdiv by lia.
    pose proof (log2_large (- z) ltac:(lia)) as He.
    pose proof (log2_large (- (z + 1)) ltac:(lia)) as He'.
    assert (Hle : Z.log2 (- (z + 1)) <= Z.log2 (- z)) by (apply Z.log2_le_mono; lia).
    set (p := 2 ^ (Z.log2 (- (z + 1)) - 52)) in *.
    assert (Hp2 : 2 <= p).
    { unfold p. replace 2 with (2 ^ 1) at 1 by reflexivity.
      apply Z.pow_le_mono_r; lia. }
    assert (Hpz : (p | z)).
    { eapply Z.divide_trans; [|exact Hdiv]. apply pow2_divide; lia. }
    destruct Hpz as [k Hk].
    destruct (round_large (z + 1)) as (q' & Hq & ->); [rewrite Z.abs_neq; lia|].
    rewrite Z.abs_neq in Hq |- * by lia. fold p in Hq |- *.
    rewrite Z.sgn_neg by lia.
    replace (- (z + 1)) with ((- k - 1) * p + (p - 1)) in Hq by lia.
    rewrite Z.div_add_l, (Z.div_small (p - 1)) in Hq by lia.
    nia.
Qed.

(** ** Heap and reducer lemmas *)

Lemma alloc_fresh (h : heap) (o : obj) : h !! (alloc h o).2 = None.
Proof. apply not_elem_of_dom_1, is_fresh. Qed.

Lemma alloc_subseteq (h : heap) (o : obj) : h ⊆ (alloc h o).1.
Proof. apply insert_subseteq, (alloc_fresh h o). Qed.

Lemma alloc_lookup (h : heap) (o : obj) : (alloc h o).1 !! (alloc h o).2 = Some o.
Proof. apply lookup_insert_eq. Qed.

Lemma get_prop_nonnullish (h : heap) (v : jsval) (k : string) :
  is_nullish v = false -> exists x, get_prop h v k = Ok x.
Proof. destruct v; simpl; try discriminate; eauto. Qed.

Lemma get_prop_num (h : heap) (v : jsval) (k : string) (z : Z) :
  get_prop h v k = Ok (JNum z) ->
  exists l o, v = JObj l /\ h !! l = Some o /\ o !! k = Some (JNum z).
Proof.
  destruct v; simpl; try discriminate.
  destruct (h !! l) as [o|] eqn:Hl; simpl; [|discriminate].
  destruct (o !! k) eqn:Hk; simpl; intros [= ->]; eauto.
Qed.

Lemma get_prop_weaken (h h' : heap) (l : loc) (o : obj) (k : string) :
  h ⊆ h' -> h !! l = Some o -> get_prop h' (JObj l) k = get_prop h (JObj l) k.
Proof.
  intros Hs Hl. simpl. rewrite Hl, (lookup_weaken h h' l o Hl Hs). done.
Qed.

Lemma get_prop_alloc_obj (h : heap) (o : obj) (k : string) :
  get_prop (alloc h o).1 (JObj (alloc h o).2) k = Ok (default JUndef (o !! k)).
Proof. simpl. rewrite lookup_insert_eq. done. Qed.

(** Allocating an object without a [type] property does not change what
    [action.type] reads. *)
Lemma get_type_alloc (h : heap) (o : obj) (a : jsval) :
  o !! "type" = None ->
  get_prop (alloc h o).1 a "type" = get_prop h a "type".
Proof.
  intros Ho. destruct a as [| | | | | | | |l]; try done. simpl.
  destruct (decide (l = fresh (dom h))) as [->|Hne].
  - rewrite lookup_insert_eq. simpl. rewrite Ho.
    pose proof (alloc_fresh h o) as Hf. simpl in Hf. rewrite Hf. done.
  - rewrite lookup_insert_ne by congruence. done.
Qed.

Lemma counterReducer_defined (h : heap) (s a : jsval) :
  s <> JUndef ->
  counterReducer h s a =
    (t ← get_prop h a "type";
     if strict_eq t INCREASE_COUNT then
       c ← get_prop h s "clicks";
       v ← js_plus_one h c;
       let '(h', l) := alloc h {[ "clicks" := v ]} in Ok (h', JObj l)
     else Ok (h, s)).
Proof. destruct s; done. Qed.

Lemma counterReducer_undefined (h : heap) (a : jsval) :
  counterReducer h JUndef a =
    (let '(h0, l0) := alloc h {[ "clicks" := JNum 0 ]} in
     t ← get_prop h0 a "type";
     if strict_eq t INCREASE_COUNT then
       c ← get_prop h0 (JObj l0) "clicks";
       v ← js_plus_one h0 c;
       let '(h', l) := alloc h0 {[ "clicks" := v ]} in Ok (h', JObj l)
     else Ok (h0, JObj l0)).
Proof. done. Qed.

Lemma counterReducer_subseteq (h h' : heap) (s a r : jsval) :
  counterReducer h s a = Ok (h', r) -> h ⊆ h'.
Proof.
  intros Hr.
  assert (Hinc : forall h0 s0, h ⊆ h0 ->
    (t ← get_prop h0 a "type";
     if strict_eq t INCREASE_COUNT then
       c ← get_prop h0 s0 "clicks";
       v ← js_plus_one h0 c;
       let '(h1, l) := alloc h0 {[ "clicks" := v ]} in Ok (h1, JObj l)
     else Ok (h0, s0)) = Ok (h', r) -> h ⊆ h').
  { intros h0 s0 H0 Hm.
    destruct (get_prop h0 a "type") as [t|]; simpl in Hm; [|discriminate].
    destruct (strict_eq t INCREASE_COUNT).
    - destruct (get_prop h0 s0 "clicks") as [c|]; simpl in Hm; [|discriminate].
      destruct (js_plus_one h0 c) as [v|]; simpl in Hm; [|discriminate].
      injection Hm as <- _. etrans; [exact H0|apply alloc_subseteq].
    - injection Hm as <- _. exact H0. }
  destruct (decide (s = JUndef)) as [->|Hne].
  - rewrite counterReducer_undefined in Hr.
    apply (Hinc (alloc h {[ "clicks" := JNum 0 ]}).1
                (JObj (alloc h {[ "clicks" := JNum 0 ]}).2));
      [apply alloc_subseteq|exact Hr].
  - rewrite counterReducer_defined in Hr by done. eapply Hinc; [done|exact Hr].
Qed.

(** One reduction from a state whose [clicks] is the number [z]. *)
Lemma step_num (h : heap) (s a : jsval) (z : Z) :
  get_prop h s "clicks" = Ok (JNum z) -> is_nullish a = false ->
  exists t h' r,
    get_prop h a "type" = Ok t /\
    counterReducer h s a = Ok (h', r) /\ h ⊆ h' /\
    get_prop h' r "clicks" =
      Ok (JNum (if strict_eq t INCREASE_COUNT then round_double (z + 1) else z)).
Proof.
  intros Hs Ha.
  destruct (get_prop_num h s "clicks" z Hs) as (l & o & -> & Hl & Ho).
  destruct (get_prop_nonnullish h a "type" Ha) as [t Ht].
  rewrite counterReducer_defined by discriminate.
  rewrite Ht. cbn [mbind outcome_bind]. exists t.
  destruct (strict_eq t INCREASE_COUNT).
  - rewrite Hs. cbn [mbind outcome_bind js_plus_one].
    set (o' := {[ "clicks" := JNum (round_double (z + 1)) ]} : obj).
    exists (alloc h o').1, (JObj (alloc h o').2).
    split; [done|]. split; [done|]. split; [apply alloc_subseteq|].
    rewrite get_prop_alloc_obj. unfold o'. rewrite lookup_singleton_eq. done.
  - exists h, (JObj l). auto.
Qed.

Lemma run_increase (n : nat) (h : heap) (s : jsval) (la : loc) (c : Z) :
  h !! la = Some {[ "type" := INCREASE_COUNT ]} ->
  get_prop h s "clicks" = Ok (JNum c) ->
  exists h' s', run h s (repeat (JObj la) n) = Ok (h', s') /\ h ⊆ h' /\
    get_prop h' s' "clicks" =
      Ok (JNum (Nat.iter n (fun x => round_double (x + 1)) c)).
Proof.
  revert h s c. induction n as [|n IH]; intros h s c Hla Hs.
  - exists h, s. auto.
  - destruct (step_num h s (JObj la) c Hs eq_refl) as (t & h1 & s1 & Ht & Hr & Hsub & Hc).
    assert (t = INCREASE_COUNT) as ->.
    { simpl in Ht. rewrite Hla in Ht. simpl in Ht. rewrite lookup_singleton_eq in Ht.
      injection Ht as <-. done. }
    simpl in Hc.
    assert (Hla1 : h1 !! la = Some {[ "type" := INCREASE_COUNT ]})
      by (eapply lookup_weaken; eauto).
    destruct (IH h1 s1 _ Hla1 Hc) as (h' & s' & Hrun & Hsub' & Hc').
    exists h', s'. rewrite Nat.iter_succ_r. cbn [run repeat].
    rewrite Hr. cbn [mbind outcome_bind]. split; [exact Hrun|].
    split; [etrans; eauto|]. exact Hc'.
Qed.

(** The default branch with an [undefined] state returns the freshly
    allocated default [{ clicks: 0 }]. *)
Lemma reducer_undefined_default (h : heap) (a t : jsval) :
  get_prop h a "type" = Ok t -> strict_eq t INCREASE_COUNT = false ->
  counterReducer h JUndef a =
    Ok ((alloc h {[ "clicks" := JNum 0 ]}).1,
        JObj (alloc h {[ "clicks" := JNum 0 ]}).2).
Proof.
  intros Ht Hne.
  pose proof (get_type_alloc h {[ "clicks" := JNum 0 ]} a
                ltac:(by rewrite lookup_singleton_ne)) as E.
  rewrite counterReducer_undefined.
  destruct (alloc h {[ "clicks" := JNum 0 ]}) as [h0 l0] eqn:Ealloc.
  simpl in E. rewrite E, Ht. simpl. rewrite Hne. done.
Qed.

Lemma seed_spec (h : heap) :
  exists h' l, seed h = Ok (h', JObj l) /\ h ⊆ h' /\ h !! l = None /\
    h' !! l = Some {[ "clicks" := JNum 0 ]}.
Proof.
  unfold seed.
  set (oi := {[ "type" := JStr "@@redux/INIT" ]} : obj).
  change (alloc h oi) with ((alloc h oi).1, (alloc h oi).2). cbv iota beta.
  rewrite (reducer_undefined_default _ _ (JStr "@@redux/INIT"));
    [|rewrite get_prop_alloc_obj; unfold oi; rewrite lookup_singleton_eq; done
     |reflexivity].
  eexists _, _. split; [reflexivity|].
  split; [etrans; apply alloc_subseteq|].
  split; [|apply alloc_lookup].
  pose proof (alloc_fresh (alloc h oi).1 {[ "clicks" := JNum 0 ]}) as Hf.
  destruct (h !! _) eqn:E; [|done].
  rewrite (lookup_weaken _ _ _ _ E (alloc_subseteq h oi)) in Hf. discriminate.
Qed.

Lemma clicks_increase_n (h : heap) (n : nat) :
  clicks_of (increase_n h n) =
    Ok (JNum (Nat.iter n (fun x => round_double (x + 1)) 0)).
Proof.
  unfold increase_n.
  set (oa := {[ "type" := INCREASE_COUNT ]} : obj).
  change (alloc h oa) with ((alloc h oa).1, (alloc h oa).2). cbv iota beta.
  unfold session.
  destruct (seed_spec (alloc h oa).1) as (h0 & l0 & Hseed & Hsub & _ & Hl0).
  rewrite Hseed. cbn [mbind outcome_bind].
  assert (Hla : h0 !! (alloc h oa).2 = Some oa)
    by (eapply lookup_weaken; [apply alloc_lookup|exact Hsub]).
  assert (Hc : get_prop h0 (JObj l0) "clicks" = Ok (JNum 0))
    by (simpl; rewrite Hl0; simpl; rewrite lookup_singleton_eq; done).
  destruct (run_increase n h0 (JObj l0) _ 0 Hla Hc) as (h' & s' & Hrun & _ & Hc').
  rewrite Hrun. exact Hc'.
Qed.

Lemma iter_plus_one_exact (n : nat) :
  Z.of_nat n <= 2 ^ 53 -> Nat.iter n (fun x => round_double (x + 1)) 0 = Z.of_nat n.
Proof.
  induction n as [|n IH]; intros Hn; [done|].
  rewrite Nat.iter_succ, IH by lia.
  rewrite round_small by lia. lia.
Qed.

(** ** C1 *)

(** C1 (counterexample): after 2^53 + 1 dispatches of INCREASE_COUNT from
    the seed state (clicks 0), [clicks] is 2^53, not 2^53 + 1: the double
    sum 2^53 + 1 rounds back to 2^53. *)
Lemma C1_counterexample :
  clicks_of (seed ∅) = Ok (JNum 0) /\
  clicks_of (increase_n ∅ (Z.to_nat (2 ^ 53 + 1))) = Ok (JNum (2 ^ 53)) /\
  clicks_of (increase_n ∅ (Z.to_nat (2 ^ 53 + 1)))
    <> Ok (JNum (0 + Z.of_nat (Z.to_nat (2 ^ 53 + 1)))).
Proof.
  assert (E : clicks_of (increase_n ∅ (Z.to_nat (2 ^ 53 + 1))) = Ok (JNum (2 ^ 53))).
  { rewrite clicks_increase_n.
    replace (Z.to_nat (2 ^ 53 + 1)) with (S (Z.to_nat (2 ^ 53))) by lia.
    rewrite Nat.iter_succ, iter_plus_one_exact by lia.
    rewrite Z2Nat.id by lia. reflexivity. }
  split; [vm_compute; reflexivity|]. split; [exact E|].
  rewrite E. rewrite Z2Nat.id by lia. intros [=].
Qed.

(** C1 (amended): for every N <= 2^53, N dispatches of INCREASE_COUNT from
    the seed state (clicks 0) give clicks = 0 + N. *)
Theorem C1_increase_n_clicks (h : heap) (N : nat) :
  Z.of_nat N <= 2 ^ 53 ->
  clicks_of (seed h) = Ok (JNum 0) /\
  clicks_of (increase_n h N) = Ok (JNum (0 + Z.of_nat N)).
Proof.
  intros HN. split.
  - destruct (seed_spec h) as (h0 & l0 & -> & _ & _ & Hl0).
    simpl. rewrite Hl0. simpl. rewrite lookup_singleton_eq. done.
  - rewrite clicks_increase_n, iter_plus_one_exact by exact HN. done.
Qed.

Lemma C1_witness :
  Z.of_nat 5 <= 2 ^ 53 /\
  clicks_of (seed ∅) = Ok (JNum 0) /\
  clicks_of (increase_n ∅ 5) = Ok (JNum (0 + Z.of_nat 5)).
Proof.
  split; [vm_compute; discriminate|]. apply (C1_increase_n_clicks ∅ 5).
  vm_compute. discriminate.
Defined.

(** ** C2 *)

(** C2 (counterexample): with an [undefined] state the default branch does
    not return its state argument: it returns the default [{ clicks: 0 }]. *)
Lemma C2_counterexample :
  ~ (exists h', counterReducer scenario_heap JUndef (JObj 2%positive) = Ok (h', JUndef)).
Proof. vm_compute. intros [h' E]. discriminate. Qed.

(** C2 (amended): for every state other than [undefined], an action with an
    unrecognized discriminator returns the very same state (and heap); so
    does any sequence of such actions. *)
Theorem C2_identity_default (h : heap) (s : jsval) :
  s <> JUndef ->
  (forall a, unrecognized h a -> counterReducer h s a = Ok (h, s)) /\
  (forall acts, Forall (unrecognized h) acts -> run h s acts = Ok (h, s)).
Proof.
  intros Hs.
  assert (Hstep : forall a, unrecognized h a -> counterReducer h s a = Ok (h, s)).
  { intros a (t & Ht & Hne).
    rewrite counterReducer_defined by exact Hs.
    rewrite Ht. cbn [mbind outcome_bind]. rewrite Hne. done. }
  split; [exact Hstep|].
  intros acts Hacts. induction Hacts as [|a acts Ha _ IH]; [done|].
  cbn [run]. rewrite (Hstep a Ha). exact IH.
Qed.

Lemma C2_witness :
  counterReducer scenario_heap (JObj 1%positive) (JObj 2%positive) = Ok (scenario_heap, JObj 1%positive) /\
  run scenario_heap (JObj 1%positive) [JObj 2%positive; JNum 7; JObj 5%positive] = Ok (scenario_heap, JObj 1%positive).
Proof.
  destruct (C2_identity_default scenario_heap (JObj 1%positive) ltac:(discriminate))
    as [H1 H2].
  split.
  - apply H1. exists (JStr "DECREASE_COUNT"). split; vm_compute; reflexivity.
  - apply H2. repeat constructor.
    + exists (JStr "DECREASE_COUNT"). split; vm_compute; reflexivity.
    + exists JUndef. split; vm_compute; reflexivity.
    + exists JUndef. split; vm_compute; reflexivity.
Defined.

(** ** C3 *)

(** C3: with an [undefined] state and an action whose type is not
    ['INCREASE_COUNT'] (an init sentinel) the reducer returns a fresh record
    [{ clicks: 0 }] (exactly that one field); the seed state of a store has
    [clicks] 0. *)
Theorem C3_init_state (h : heap) (a t : jsval) :
  get_prop h a "type" = Ok t -> strict_eq t INCREASE_COUNT = false ->
  (exists h' l, counterReducer h JUndef a = Ok (h', JObj l) /\
     h !! l = None /\ h' !! l = Some {[ "clicks" := JNum 0 ]}) /\
  clicks_of (seed h) = Ok (JNum 0).
Proof.
  intros Ht Hne. split.
  - rewrite (reducer_undefined_default h a t Ht Hne).
    eexists _, _. split; [reflexivity|].
    split; [apply alloc_fresh|apply alloc_lookup].
  - destruct (seed_spec h) as (h0 & l0 & -> & _ & _ & Hl0).
    simpl. rewrite Hl0. simpl. rewrite lookup_singleton_eq. done.
Qed.

Lemma C3_witness :
  (exists h' l, counterReducer scenario_heap JUndef (JObj 2%positive) = Ok (h', JObj l) /\
     scenario_heap !! l = None /\ h' !! l = Some {[ "clicks" := JNum 0 ]}) /\
  clicks_of (seed scenario_heap) = Ok (JNum 0).
Proof.
  apply (C3_init_state scenario_heap (JObj 2%positive) (JStr "DECREASE_COUNT"));
    vm_compute; reflexivity.
Defined.

(** ** C4 *)

(** C4: the lesson's scenario: the seed state is [{ clicks: 0 }]; after
    INCREASE_COUNT it is [{ clicks: 1 }]; after the unhandled
    DECREASE_COUNT it is still [{ clicks: 1 }]. *)
Theorem C4_scenario :
  result_obj (session scenario_heap []) = Some {[ "clicks" := JNum 0 ]} /\
  result_obj (session scenario_heap [JObj 1%positive]) = Some {[ "clicks" := JNum 1 ]} /\
  result_obj (session scenario_heap [JObj 1%positive; JObj 2%positive]) = Some {[ "clicks" := JNum 1 ]}.
Proof. vm_compute. repeat split. Qed.

(** ** C5 *)

Lemma run_clicks_nonneg (h : heap) (s : jsval) (acts : list jsval) :
  clicks_nonneg h s -> Forall (fun a => is_nullish a = false) acts ->
  exists h' r, run h s acts = Ok (h', r) /\ clicks_nonneg h' r.
Proof.
  intros Hs Hacts. revert h s Hs.
  induction Hacts as [|a acts Ha _ IH]; intros h s (z & Hz & Hnn).
  - exists h, s. split; [done|]. exists z. auto.
  - destruct (step_num h s a z Hz Ha) as (t & h1 & s1 & _ & Hr & _ & Hc).
    cbn [run]. rewrite Hr. cbn [mbind outcome_bind]. apply IH.
    eexists. split; [exact Hc|].
    destruct (strict_eq t INCREASE_COUNT); [apply round_nonneg|]; lia.
Qed.

(** C5: "clicks is a non-negative integer" is preserved by every reduction
    with an action (any value other than null/undefined), hence along any
    sequence of actions, and it holds of every state reachable from the
    seed state. *)
Theorem C5_clicks_nonneg_invariant (h : heap) (s : jsval) (acts : list jsval) :
  clicks_nonneg h s -> Forall (fun a => is_nullish a = false) acts ->
  (exists h' r, run h s acts = Ok (h', r) /\ clicks_nonneg h' r) /\
  (exists h' r, session h acts = Ok (h', r) /\ clicks_nonneg h' r).
Proof.
  intros Hs Hacts. split; [apply run_clicks_nonneg; assumption|].
  destruct (seed_spec h) as (h0 & l0 & Hseed & _ & _ & Hl0).
  unfold session. rewrite Hseed. cbn [mbind outcome_bind].
  apply run_clicks_nonneg; [|exact Hacts].
  exists 0. split; [|lia]. simpl. rewrite Hl0. simpl.
  rewrite lookup_singleton_eq. done.
Qed.

Lemma C5_witness :
  (exists h' r, run c5_heap (JObj 1%positive) [JObj 2%positive; JStr "x"; JObj 2%positive]
                  = Ok (h', r) /\ clicks_nonneg h' r) /\
  (exists h' r, session c5_heap [JObj 2%positive; JStr "x"; JObj 2%positive]
                  = Ok (h', r) /\ clicks_nonneg h' r).
Proof.
  apply C5_clicks_nonneg_invariant.
  - exists 4. split; [vm_compute; reflexivity|lia].
  - repeat constructor.
Defined.

(** ** C6 *)

(** C6: the reducer never mutates an existing object: every object of the
    heap before the call is unchanged after it (so is the state argument);
    on the INCREASE_COUNT branch the result is a newly allocated object. *)
Theorem C6_no_mutation (h h' : heap) (s a r : jsval) :
  counterReducer h s a = Ok (h', r) ->
  (forall l o, h !! l = Some o -> h' !! l = Some o) /\
  (get_prop h a "type" = Ok INCREASE_COUNT -> exists l, r = JObj l /\ h !! l = None).
Proof.
  intros Hr. split.
  { intros l o Hl. eapply lookup_weaken; [exact Hl|].
    eapply counterReducer_subseteq; exact Hr. }
  intros Ht.
  assert (Hinc : forall h0, h ⊆ h0 -> forall s0,
    get_prop h0 a "type" = Ok INCREASE_COUNT ->
    (t ← get_prop h0 a "type";
     if strict_eq t INCREASE_COUNT then
       c ← get_prop h0 s0 "clicks";
       v ← js_plus_one h0 c;
       let '(h1, l) := alloc h0 {[ "clicks" := v ]} in Ok (h1, JObj l)
     else Ok (h0, s0)) = Ok (h', r) -> exists l, r = JObj l /\ h !! l = None).
  { intros h0 Hsub s0 Ht0 Hm. rewrite Ht0 in Hm. cbn [mbind outcome_bind] in Hm.
    change (strict_eq INCREASE_COUNT INCREASE_COUNT) with true in Hm.
    destruct (get_prop h0 s0 "clicks") as [c|]; cbn [mbind outcome_bind] in Hm;
      [|discriminate].
    destruct (js_plus_one h0 c) as [v|]; cbn [mbind outcome_bind] in Hm; [|discriminate].
    injection Hm as _ <-. exists (alloc h0 {[ "clicks" := v ]}).2. split; [done|].
    pose proof (alloc_fresh h0 {[ "clicks" := v ]}) as Hf.
    destruct (h !! _) eqn:E; [|done].
    rewrite (lookup_weaken _ _ _ _ E Hsub) in Hf. discriminate. }
  destruct (decide (s = JUndef)) as [->|Hne].
  - rewrite counterReducer_undefined in Hr.
    eapply (Hinc (alloc h {[ "clicks" := JNum 0 ]}).1); [apply alloc_subseteq| |exact Hr].
    rewrite get_type_alloc by (by rewrite lookup_singleton_ne). exact Ht.
  - rewrite counterReducer_defined in Hr by exact Hne.
    eapply Hinc; [done|exact Ht|exact Hr].
Qed.

Lemma C6_witness :
  (forall l o, c5_heap !! l = Some o ->
     (alloc c5_heap {[ "clicks" := JNum 5 ]}).1 !! l = Some o) /\
  (get_prop c5_heap (JObj 2%positive) "type" = Ok INCREASE_COUNT ->
   exists l, JObj (alloc c5_heap {[ "clicks" := JNum 5 ]}).2 = JObj l /\ c5_heap !! l = None).
Proof.
  apply (C6_no_mutation c5_heap _ (JObj 1%positive) (JObj 2%positive)).
  vm_compute. reflexivity.
Defined.

(** ** C7 *)

Lemma get_prop_wf_weaken (h h' : heap) (v : jsval) (k : string) :
  h ⊆ h' -> wf_val h v -> get_prop h' v k = get_prop h v k.
Proof.
  intros Hs Hwf. destruct v as [| | | | | | | |l]; try done.
  destruct Hwf as [o Ho]. apply (get_prop_weaken h h' l o); done.
Qed.

Lemma js_plus_one_weaken (h h' : heap) (c : jsval) :
  h ⊆ h' -> wf_val h c -> js_plus_one h' c = js_plus_one h c.
Proof.
  intros Hs Hwf. destruct c as [| | | | | | | |l]; try done.
  destruct Hwf as [o Ho]. simpl. rewrite Ho, (lookup_weaken h h' l o Ho Hs). done.
Qed.

Lemma reducer_body_same (h1 h2 : heap) (s1 s2 a : jsval) :
  get_prop h2 a "type" = get_prop h1 a "type" ->
  get_prop h2 s2 "clicks" = get_prop h1 s1 "clicks" ->
  (forall c, get_prop h1 s1 "clicks" = Ok c -> js_plus_one h2 c = js_plus_one h1 c) ->
  (s1 = s2 \/ exists l1 l2 o, s1 = JObj l1 /\ s2 = JObj l2 /\
                              h1 !! l1 = Some o /\ h2 !! l2 = Some o) ->
  same_result (reducer_body h1 s1 a) (reducer_body h2 s2 a).
Proof.
  intros Ht Hc Hp Hs. unfold reducer_body. rewrite Ht.
  destruct (get_prop h1 a "type") as [t|e]; cbn [mbind outcome_bind]; [|done].
  destruct (strict_eq t INCREASE_COUNT); [|exact Hs].
  rewrite Hc. destruct (get_prop h1 s1 "clicks") as [c|e]; cbn [mbind outcome_bind]; [|done].
  rewrite (Hp c eq_refl).
  destruct (js_plus_one h1 c) as [v|e]; cbn [mbind outcome_bind]; [|done].
  right. exists (alloc h1 {[ "clicks" := v ]}).2, (alloc h2 {[ "clicks" := v ]}).2,
    {[ "clicks" := v ]}.
  split; [done|]. split; [done|]. split; apply alloc_lookup.
Qed.

(** C7: the reducer is deterministic: two invocations on the same state and
    action give equal results, also when the second runs in a heap grown by
    other allocations (e.g. by the first call).  The state, the action and
    the state's [clicks] value are references into the heap, not dangling
    locations. *)
Theorem C7_deterministic (h1 h2 : heap) (s a : jsval) :
  h1 ⊆ h2 -> wf_val h1 s -> wf_val h1 a ->
  (forall c, get_prop h1 s "clicks" = Ok c -> wf_val h1 c) ->
  same_result (counterReducer h1 s a) (counterReducer h2 s a).
Proof.
  intros Hsub Hs Ha Hcw.
  destruct (decide (s = JUndef)) as [->|Hne].
  - rewrite !counterReducer_undefined.
    set (o0 := {[ "clicks" := JNum 0 ]} : obj).
    change (alloc h1 o0) with ((alloc h1 o0).1, (alloc h1 o0).2).
    change (alloc h2 o0) with ((alloc h2 o0).1, (alloc h2 o0).2).
    cbv iota beta. fold (reducer_body (alloc h1 o0).1 (JObj (alloc h1 o0).2) a).
    fold (reducer_body (alloc h2 o0).1 (JObj (alloc h2 o0).2) a).
    assert (Hno : o0 !! "type" = None) by (unfold o0; by rewrite lookup_singleton_ne).
    apply reducer_body_same.
    + rewrite !get_type_alloc by exact Hno. apply get_prop_wf_weaken; done.
    + rewrite !get_prop_alloc_obj. done.
    + rewrite get_prop_alloc_obj. intros c [= <-]. done.
    + right. do 3 eexists. split; [done|]. split; [done|].
      split; apply alloc_lookup.
  - rewrite !counterReducer_defined by exact Hne.
    fold (reducer_body h1 s a). fold (reducer_body h2 s a).
    apply reducer_body_same; [apply get_prop_wf_weaken; done
                             |apply get_prop_wf_weaken; done| |left; done].
    intros c Hc. apply js_plus_one_weaken; [done|]. exact (Hcw c Hc).
Qed.

Lemma C7_witness :
  same_result (counterReducer c5_heap (JObj 1%positive) (JObj 2%positive))
              (counterReducer (<[3%positive := ∅]> c5_heap) (JObj 1%positive) (JObj 2%positive)).
Proof.
  apply C7_deterministic.
  - apply insert_subseteq. vm_compute. reflexivity.
  - vm_compute. eexists. reflexivity.
  - vm_compute. eexists. reflexivity.
  - intros c Hc. vm_compute in Hc. injection Hc as <-. exact I.
Defined.

(** ** C8 *)

Lemma js_plus_one_ok (h : heap) (c : jsval) :
  plus_throws h c = false -> exists v, js_plus_one h c = Ok v.
Proof.
  destruct c as [| | | | | | | |l]; simpl; try discriminate; eauto.
  destruct (h !! l ≫= (.!! "toString")); [discriminate|eauto].
Qed.





(** ** C9 *)

Lemma counterReducer_body (h : heap) (s a : jsval) :
  exists h0 s0, get_prop h0 a "type" = get_prop h a "type" /\ h ⊆ h0 /\
    counterReducer h s a = reducer_body h0 s0 a.
Proof.
  destruct (decide (s = JUndef)) as [->|Hne].
  - set (o0 := {[ "clicks" := JNum 0 ]} : obj).
    exists (alloc h o0).1, (JObj (alloc h o0).2). split.
    + apply get_type_alloc. unfold o0. by rewrite lookup_singleton_ne.
    + split; [apply alloc_subseteq|]. rewrite counterReducer_undefined. done.
  - exists h, s. split; [done|]. split; [done|].
    rewrite counterReducer_defined by exact Hne. done.
Qed.

(** C9: on the INCREASE_COUNT branch the result is an object with exactly
    one property, [clicks]: every other property of the input state is
    absent from it. *)
Theorem C9_increase_single_field (h h' : heap) (s a r : jsval) :
  get_prop h a "type" = Ok INCREASE_COUNT ->
  counterReducer h s a = Ok (h', r) ->
  exists l v, r = JObj l /\ h' !! l = Some {[ "clicks" := v ]} /\
    (forall k, k <> "clicks" -> get_prop h' r k = Ok JUndef).
Proof.
  intros Ht Hr.
  destruct (counterReducer_body h s a) as (h0 & s0 & Ht0 & _ & E).
  rewrite E in Hr. unfold reducer_body in Hr. rewrite Ht0, Ht in Hr.
  cbn [mbind outcome_bind] in Hr.
  change (strict_eq INCREASE_COUNT INCREASE_COUNT) with true in Hr.
  destruct (get_prop h0 s0 "clicks") as [c|]; cbn [mbind outcome_bind] in Hr;
    [|discriminate].
  destruct (js_plus_one h0 c) as [v|]; cbn [mbind outcome_bind] in Hr; [|discriminate].
  change (alloc h0 {[ "clicks" := v ]})
    with ((alloc h0 {[ "clicks" := v ]}).1, (alloc h0 {[ "clicks" := v ]}).2) in Hr.
  cbv iota beta in Hr. injection Hr as <- <-.
  exists (alloc h0 {[ "clicks" := v ]}).2, v.
  split; [done|]. split; [apply alloc_lookup|].
  intros k Hk. simpl. rewrite lookup_insert_eq. simpl.
  rewrite lookup_singleton_ne by congruence. done.
Qed.

Lemma C9_witness :
  exists l v, JObj (alloc c9_heap {[ "clicks" := JNum 4 ]}).2 = JObj l /\
    (alloc c9_heap {[ "clicks" := JNum 4 ]}).1 !! l = Some {[ "clicks" := v ]} /\
    (forall k, k <> "clicks" ->
       get_prop (alloc c9_heap {[ "clicks" := JNum 4 ]}).1
                (JObj (alloc c9_heap {[ "clicks" := JNum 4 ]}).2) k = Ok JUndef).
Proof.
  apply (C9_increase_single_field c9_heap _ (JObj 1%positive) (JObj 2%positive));
    vm_compute; reflexivity.
Defined.

(** ** C10 *)

(** C10 (counterexample): from [{ clicks: 2^53 }] (an integer) the action
    INCREASE_COUNT leaves [clicks] at 2^53: no increase by 1. *)
Lemma C10_counterexample :
  is_double (2 ^ 53) /\
  clicks_of (counterReducer c10_heap (JObj 1%positive) (JObj 2%positive)) = Ok (JNum (2 ^ 53)) /\
  clicks_of (counterReducer c10_heap (JObj 1%positive) (JObj 2%positive)) <> Ok (JNum (2 ^ 53 + 1)).
Proof. vm_compute. split; [reflexivity|]. split; [reflexivity|]. discriminate. Qed.

(** C10 (amended): for a state whose [clicks] is an integer (a double) and
    an action (not null/undefined), the resulting [clicks] is never smaller;
    it is unchanged when [type] is not INCREASE_COUNT, and it is exactly one
    larger when [type] is INCREASE_COUNT and -2^53 <= clicks < 2^53. *)
Theorem C10_clicks_monotone (h : heap) (s a : jsval) (z : Z) :
  get_prop h s "clicks" = Ok (JNum z) -> is_double z -> is_nullish a = false ->
  exists t h' r z',
    get_prop h a "type" = Ok t /\ counterReducer h s a = Ok (h', r) /\
    get_prop h' r "clicks" = Ok (JNum z') /\ z <= z' /\
    (strict_eq t INCREASE_COUNT = false -> z' = z) /\
    (strict_eq t INCREASE_COUNT = true -> - 2 ^ 53 <= z < 2 ^ 53 -> z' = z + 1).
Proof.
  intros Hs Hd Ha.
  destruct (step_num h s a z Hs Ha) as (t & h' & r & Ht & Hr & _ & Hc).
  exists t, h', r, (if strict_eq t INCREASE_COUNT then round_double (z + 1) else z).
  do 3 (split; [done|]).
  destruct (strict_eq t INCREASE_COUNT).
  - split; [apply round_plus1_ge, Hd|]. split; [discriminate|].
    intros _ Hz. apply round_small. lia.
  - split; [lia|]. split; [done|discriminate].
Qed.

Lemma C10_witness :
  exists t h' r z',
    get_prop c5_heap (JObj 2%positive) "type" = Ok t /\
    counterReducer c5_heap (JObj 1%positive) (JObj 2%positive) = Ok (h', r) /\
    get_prop h' r "clicks" = Ok (JNum z') /\ 4 <= z' /\
    (strict_eq t INCREASE_COUNT = false -> z' = 4) /\
    (strict_eq t INCREASE_COUNT = true -> - 2 ^ 53 <= 4 < 2 ^ 53 -> z' = 4 + 1).
Proof.
  apply C10_clicks_monotone; [vm_compute; reflexivity|vm_compute; reflexivity|reflexivity].
Defined.

(** ** Further properties of counterReducer *)

Lemma step_val (h : heap) (s a c : jsval) :
  get_prop h s "clicks" = Ok c -> is_nullish a = false -> plus_throws h c = false ->
  exists h' r, counterReducer h s a = Ok (h', r) /\ h ⊆ h' /\
    get_prop h' r "clicks" = (if is_increase h a then js_plus_one h c else Ok c).
Proof.
  intros Hs Ha Hc.
  assert (Hne : s <> JUndef) by (intros ->; discriminate).
  rewrite counterReducer_defined by exact Hne.
  destruct (get_prop_nonnullish h a "type" Ha) as [t Ht].
  unfold is_increase. rewrite Ht. cbn [mbind outcome_bind].
  destruct (strict_eq t INCREASE_COUNT).
  - rewrite Hs. cbn [mbind outcome_bind].
    destruct (js_plus_one_ok h c Hc) as [v Hv]. rewrite Hv.
    cbn [mbind outcome_bind].
    exists (alloc h {[ "clicks" := v ]}).1, (JObj (alloc h {[ "clicks" := v ]}).2).
    split; [done|]. split; [apply alloc_subseteq|].
    rewrite get_prop_alloc_obj, lookup_singleton_eq. done.
  - exists h, s. auto.
Qed.

(** X1: INCREASE_COUNT on an [undefined] state first takes the default
    [{ clicks: 0 }] and then returns a new object [{ clicks: 1 }]. *)
Theorem X1_undefined_increase (h : heap) (a : jsval) :
  is_increase h a = true ->
  exists h' l, counterReducer h JUndef a = Ok (h', JObj l) /\ h !! l = None /\
    h' !! l = Some {[ "clicks" := JNum 1 ]}.
Proof.
  intros Hi. unfold is_increase in Hi.
  destruct (get_prop h a "type") as [t|] eqn:Ht; [|discriminate].
  rewrite counterReducer_undefined.
  set (o0 := {[ "clicks" := JNum 0 ]} : obj).
  change (alloc h o0) with ((alloc h o0).1, (alloc h o0).2). cbv iota beta.
  rewrite get_type_alloc by (unfold o0; by rewrite lookup_singleton_ne).
  rewrite Ht. cbn [mbind outcome_bind]. rewrite Hi.
  rewrite get_prop_alloc_obj. unfold o0. rewrite lookup_singleton_eq.
  cbn [default mbind outcome_bind js_plus_one].
  set (h0 := (alloc h {[ "clicks" := JNum 0 ]}).1).
  set (o1 := {[ "clicks" := JNum (round_double (0 + 1)) ]} : obj).
  exists (alloc h0 o1).1, (alloc h0 o1).2. split; [done|]. split.
  - pose proof (alloc_fresh h0 o1) as Hf.
    destruct (h !! _) eqn:E; [|done].
    unfold h0 in Hf.
    rewrite (lookup_weaken _ _ _ _ E (alloc_subseteq h _)) in Hf. discriminate.
  - rewrite alloc_lookup. done.
Qed.

Lemma X1_witness :
  exists h' l, counterReducer scenario_heap JUndef (JObj 1%positive) = Ok (h', JObj l) /\
    scenario_heap !! l = None /\ h' !! l = Some {[ "clicks" := JNum 1 ]}.
Proof. apply X1_undefined_increase. vm_compute. reflexivity. Defined.

(** X2: INCREASE_COUNT on a state that has no [clicks] field yields
    [{ clicks: NaN }] ([undefined + 1]). *)
Theorem X2_missing_clicks_nan (h : heap) (s a : jsval) :
  get_prop h s "clicks" = Ok JUndef -> is_increase h a = true ->
  exists h' r, counterReducer h s a = Ok (h', r) /\ get_prop h' r "clicks" = Ok JNaN.
Proof.
  intros Hs Hi.
  assert (Ha : is_nullish a = false).
  { unfold is_increase in Hi. destruct a; try done. }
  destruct (step_val h s a JUndef Hs Ha eq_refl) as (h' & r & Hr & _ & Hc).
  rewrite Hi in Hc. eauto.
Qed.

Lemma X2_witness :
  exists h' r, counterReducer empty_state_heap (JObj 1%positive) (JObj 2%positive) = Ok (h', r) /\
    get_prop h' r "clicks" = Ok JNaN.
Proof. apply X2_missing_clicks_nan; vm_compute; reflexivity. Defined.

(** X3: NaN is absorbing: from a state whose [clicks] is NaN, every sequence
    of actions (none null/undefined) ends in a state whose [clicks] is NaN. *)
Theorem X3_nan_absorbing (h : heap) (s : jsval) (acts : list jsval) :
  get_prop h s "clicks" = Ok JNaN -> Forall (fun a => is_nullish a = false) acts ->
  exists h' r, run h s acts = Ok (h', r) /\ get_prop h' r "clicks" = Ok JNaN.
Proof.
  intros Hs Hacts. revert h s Hs.
  induction Hacts as [|a acts Ha _ IH]; intros h s Hs; [eauto|].
  destruct (step_val h s a JNaN Hs Ha eq_refl) as (h1 & s1 & Hr & _ & Hc).
  cbn [run]. rewrite Hr. cbn [mbind outcome_bind]. apply IH.
  rewrite Hc. destruct (is_increase h a); done.
Qed.

Lemma X3_witness :
  exists h' r, run nan_heap (JObj 1%positive) [JObj 2%positive; JStr "x"; JObj 2%positive] = Ok (h', r) /\
    get_prop h' r "clicks" = Ok JNaN.
Proof. apply X3_nan_absorbing; [vm_compute; reflexivity|repeat constructor]. Defined.

(** X4: a string [clicks] is concatenated with "1" by INCREASE_COUNT
    ([{ clicks: "5" }] becomes [{ clicks: "51" }]). *)
Theorem X4_string_clicks_concat (h : heap) (s a : jsval) (str : string) :
  get_prop h s "clicks" = Ok (JStr str) -> is_increase h a = true ->
  exists h' r, counterReducer h s a = Ok (h', r) /\
    get_prop h' r "clicks" = Ok (JStr (str +:+ "1")).
Proof.
  intros Hs Hi.
  assert (Ha : is_nullish a = false).
  { unfold is_increase in Hi. destruct a; try done. }
  destruct (step_val h s a (JStr str) Hs Ha eq_refl) as (h' & r & Hr & _ & Hc).
  rewrite Hi in Hc. eauto.
Qed.

Lemma X4_witness :
  exists h' r, counterReducer string_heap (JObj 1%positive) (JObj 2%positive) = Ok (h', r) /\
    get_prop h' r "clicks" = Ok (JStr ("5" +:+ "1")).
Proof. apply X4_string_clicks_concat; vm_compute; reflexivity. Defined.



Lemma wf_val_weaken (h h' : heap) (v : jsval) :
  h ⊆ h' -> wf_val h v -> wf_val h' v.
Proof. intros Hs. destruct v; simpl; try done. intros. eapply lookup_weaken_is_Some; eauto. Qed.

Lemma count_inc_weaken (h h' : heap) (acts : list jsval) :
  h ⊆ h' -> Forall (wf_val h) acts -> count_inc h' acts = count_inc h acts.
Proof.
  intros Hs Hacts. induction Hacts as [|a acts Ha _ IH]; [done|].
  cbn [count_inc]. rewrite IH. unfold is_increase.
  rewrite (get_prop_wf_weaken h h' a "type" Hs Ha). done.
Qed.

(** X6: over a sequence of actions (none null/undefined, all allocated) from
    a state whose [clicks] is an integer z, as long as no count can pass
    2^53, the final [clicks] is z plus the number of INCREASE_COUNT actions
    in the sequence; the other actions do not count. *)
Theorem X6_count_increments (h : heap) (s : jsval) (z : Z) (acts : list jsval) :
  get_prop h s "clicks" = Ok (JNum z) ->
  Forall (fun a => is_nullish a = false /\ wf_val h a) acts ->
  - 2 ^ 53 <= z -> z + Z.of_nat (length acts) <= 2 ^ 53 ->
  exists h' r, run h s acts = Ok (h', r) /\
    get_prop h' r "clicks" = Ok (JNum (z + count_inc h acts)).
Proof.
  revert h s z. induction acts as [|a acts IH]; intros h s z Hs Hacts Hlo Hhi.
  { exists h, s. split; [done|]. rewrite Z.add_0_r. exact Hs. }
  apply Forall_cons in Hacts as [[Ha Hwa] Hacts].
  destruct (step_num h s a z Hs Ha) as (t & h1 & s1 & Ht & Hr & Hsub & Hc).
  assert (Hi : is_increase h a = strict_eq t INCREASE_COUNT)
    by (unfold is_increase; rewrite Ht; done).
  cbn [length] in Hhi.
  assert (Hz1 : (if strict_eq t INCREASE_COUNT then round_double (z + 1) else z)
                = z + (if strict_eq t INCREASE_COUNT then 1 else 0)).
  { destruct (strict_eq t INCREASE_COUNT); [apply round_small; lia|lia]. }
  rewrite Hz1 in Hc.
  assert (Hacts1 : Forall (fun a => is_nullish a = false /\ wf_val h1 a) acts).
  { eapply Forall_impl; [exact Hacts|]. intros b [Hb Hwb].
    split; [exact Hb|]. eapply wf_val_weaken; eauto. }
  destruct (IH h1 s1 _ Hc Hacts1) as (h' & r & Hrun & Hc');
    [destruct (strict_eq t INCREASE_COUNT); lia
    |destruct (strict_eq t INCREASE_COUNT); lia|].
  exists h', r. cbn [run]. rewrite Hr. cbn [mbind outcome_bind].
  split; [exact Hrun|]. rewrite Hc'.
  rewrite (count_inc_weaken h h1 acts Hsub)
    by (eapply Forall_impl; [exact Hacts|]; intros b [_ Hb]; exact Hb).
  cbn [count_inc]. rewrite Hi. do 2 f_equal. lia.
Qed.

Lemma X6_witness :
  exists h' r, run c5_heap (JObj 1%positive)
                 [JObj 2%positive; JStr "x"; JObj 2%positive] = Ok (h', r) /\
    get_prop h' r "clicks" =
      Ok (JNum (4 + count_inc c5_heap [JObj 2%positive; JStr "x"; JObj 2%positive])).
Proof.
  apply X6_count_increments.
  - vm_compute. reflexivity.
  - repeat constructor; vm_compute; eexists; reflexivity.
  - vm_compute. discriminate.
  - vm_compute. discriminate.
Defined.
